(** * ompl::msg -- the console logging router of OMPL (src/ompl/util/src/Console.cpp)

    A shallow embedding of the level-filtered message router, of its bounded
    formatting buffer and of the two output handlers (standard streams and
    append-mode file), with the properties of the router proved on it.

    Conventions of the embedding.
    - The process-wide [DefaultOutputHandler] object (the static [DOH]) is a
      record that every operation receives and returns explicitly.
    - [boost::mutex lock_] and the [USE_DOH] scoped lock serialise the calls;
      the embedding is the sequential behaviour of one call at a time.
    - An [OutputHandler*] is an [option handler_ptr]; [None] is [NULL].
    - A [const char*] argument is the [string] of the characters before its
      terminator; a [char] array is a [list ascii] of the array's length.
    - Calls made on a handler are recorded as events, and performed on the
      state of the outside world (streams and files) by [perform]. *)

From Stdlib Require Import ZArith Ascii DecimalString.
From stdpp Require Import gmap strings list.

(** ** Log levels *)

(** [ompl::msg::LogLevel] is a plain C++ enumeration: a variable of that type
    holds an integer, and [log] compares and switches on it as one. *)
Definition LogLevel := Z.

(** Modelled from the spec: the enumerators of [LogLevel], declared in
    ompl/util/Console.h (not under src/): five enumerators without
    initialisers, in the order DEBUG < INFO < WARN < ERROR < NONE. *)
Definition DEBUG : LogLevel := 0%Z.
Definition INFO : LogLevel := 1%Z.
Definition WARN : LogLevel := 2%Z.
Definition ERROR : LogLevel := 3%Z.
Definition NONE : LogLevel := 4%Z.

(** The four virtual methods of [ompl::msg::OutputHandler]. *)
Inductive Sink := SinkError | SinkWarn | SinkInform | SinkDebug.

#[global] Instance Sink_eq_dec : EqDecision Sink.
Proof. solve_decision. Defined.

(** ** Router state *)

(** Address of a handler object: the [std_output_handler_] member of the
    static [DOH], or an object of the host application. *)
Inductive handler_ptr :=
  | std_output_handler_addr
  | host_addr (a : positive).

#[global] Instance handler_ptr_eq_dec : EqDecision handler_ptr.
Proof. solve_decision. Defined.

Record DefaultOutputHandler := mkDOH {
  output_handler_ : option handler_ptr;
  previous_output_handler_ : option handler_ptr;
  logLevel_ : LogLevel;
  showLineNumbers_ : bool
}.

(** The constructor [DefaultOutputHandler::DefaultOutputHandler]. *)
Definition DOH_init : DefaultOutputHandler :=
  let output := Some std_output_handler_addr in
  {| output_handler_ := output;
     previous_output_handler_ := output;
     logLevel_ := DEBUG;
     showLineNumbers_ := false |}.

Definition noOutputHandler (doh : DefaultOutputHandler) : DefaultOutputHandler :=
  {| output_handler_ := None;
     previous_output_handler_ := output_handler_ doh;
     logLevel_ := logLevel_ doh;
     showLineNumbers_ := showLineNumbers_ doh |}.

Definition restorePreviousOutputHandler (doh : DefaultOutputHandler)
  : DefaultOutputHandler :=
  {| output_handler_ := previous_output_handler_ doh;
     previous_output_handler_ := output_handler_ doh;
     logLevel_ := logLevel_ doh;
     showLineNumbers_ := showLineNumbers_ doh |}.

Definition useOutputHandler (oh : option handler_ptr) (doh : DefaultOutputHandler)
  : DefaultOutputHandler :=
  {| output_handler_ := oh;
     previous_output_handler_ := output_handler_ doh;
     logLevel_ := logLevel_ doh;
     showLineNumbers_ := showLineNumbers_ doh |}.

Definition getOutputHandler (doh : DefaultOutputHandler) : option handler_ptr :=
  output_handler_ doh.

Definition setLogLevel (level : LogLevel) (doh : DefaultOutputHandler)
  : DefaultOutputHandler :=
  {| output_handler_ := output_handler_ doh;
     previous_output_handler_ := previous_output_handler_ doh;
     logLevel_ := level;
     showLineNumbers_ := showLineNumbers_ doh |}.

Definition getLogLevel (doh : DefaultOutputHandler) : LogLevel :=
  logLevel_ doh.

Definition showLineNumbers (show : bool) (doh : DefaultOutputHandler)
  : DefaultOutputHandler :=
  {| output_handler_ := output_handler_ doh;
     previous_output_handler_ := previous_output_handler_ doh;
     logLevel_ := logLevel_ doh;
     showLineNumbers_ := show |}.

(** ** The formatting buffer *)

Definition MAX_BUFFER_SIZE : nat := 1024.

Definition NUL : ascii := Ascii.zero.

(** [buf[i] = c] on an array: outside the array the store is undefined
    behaviour, [None]. *)
Definition store (buf : list ascii) (i : nat) (c : ascii) : option (list ascii) :=
  if decide (i < length buf) then Some (<[i:=c]> buf) else None.

(** Consecutive stores of [cs] from index [i] on. *)
Fixpoint store_from (buf : list ascii) (i : nat) (cs : list ascii)
  : option (list ascii) :=
  match cs with
  | [] => Some buf
  | c :: cs' => buf' ← store buf i c; store_from buf' (S i) cs'
  end.

(** The C library's [vsnprintf] comes in two behaviours when the expansion
    does not fit in [n] bytes: C99 writes [n - 1] characters and a
    terminator; older libraries write [n] characters and no terminator. *)
Inductive Libc := C99 | PreC99.

(** [vsnprintf(buf, n, ...)] where [s] is the expansion of the format string
    with its arguments. The return value is ignored by [log]. *)
Definition vsnprintf (libc : Libc) (buf : list ascii) (n : nat) (s : list ascii)
  : option (list ascii) :=
  match n with
  | 0 => Some buf
  | S n' =>
      match libc with
      | C99 => store_from buf 0 (take n' s ++ [NUL])
      | PreC99 =>
          if decide (length s < n) then store_from buf 0 (s ++ [NUL])
          else store_from buf 0 (take n s)
      end
  end.

(** Reading a C string out of an array, as [ss << buf] does: the characters
    before the first terminator; running off the end of the array is
    undefined behaviour, [None]. *)
Fixpoint read_c_str (buf : list ascii) : option string :=
  match buf with
  | [] => None
  | c :: rest =>
      if decide (c = NUL) then Some EmptyString
      else String c <$> read_c_str rest
  end.

(** The characters of [s] before its first NUL, all of [s] when it has none. *)
Fixpoint until_nul (s : list ascii) : string :=
  match s with
  | [] => EmptyString
  | c :: rest => if decide (c = NUL) then EmptyString else String c (until_nul rest)
  end.

(** ** Text written by [log] *)

(** [ss << line] for an [int]: its decimal numeral, with a sign when
    negative. *)
Definition decimal (n : Z) : string := NilZero.string_of_int (Z.to_int n).

Definition slash : ascii := "/"%char.

Fixpoint has_slash (p : string) : bool :=
  match p with
  | EmptyString => false
  | String c rest => bool_decide (c = slash) || has_slash rest
  end.

(** Modelled from the spec: [boost::filesystem::path(file).filename().string()],
    a function of the Boost library (not under src/): the file path reduced
    to its final path component, the characters after the last separator. *)
Fixpoint filename (p : string) : string :=
  match p with
  | EmptyString => EmptyString
  | String c rest =>
      if has_slash rest then filename rest
      else if bool_decide (c = slash) then rest
      else p
  end.

(** What [log] does that can be observed: the formatting of a message into
    the buffer, and a call of one virtual method of a handler. *)
Inductive Event :=
  | EvFormat
  | EvCall (oh : handler_ptr) (method : Sink) (text : string).

#[global] Instance Event_eq_dec : EqDecision Event.
Proof. solve_decision. Defined.

(** The [switch (level)] of [log]. *)
Definition level_switch (level : LogLevel) : Sink :=
  if decide (level = ERROR) then SinkError
  else if decide (level = WARN) then SinkWarn
  else if decide (level = INFO) then SinkInform
  else if decide (level = DEBUG) then SinkDebug
  else (* case NONE: default: *) SinkError.

Section Log.

(** The variadic arguments and the expansion of a format string with them
    (the work of [vsnprintf] before it stores anything). *)
Variable va_list : Type.
Variable expand : string -> va_list -> list ascii.

Variable libc : Libc.

(** What an uninitialised [char buf[n]] holds. *)
Variable garbage : nat -> ascii.

Definition uninitialised (n : nat) : list ascii := garbage <$> seq 0 n.

(** Lines 112-117: the message formatted into [buf], then terminated. *)
Definition format_buffer (m : string) (ap : va_list) : option (list ascii) :=
  buf ← vsnprintf libc (uninitialised MAX_BUFFER_SIZE) MAX_BUFFER_SIZE (expand m ap);
  store buf (MAX_BUFFER_SIZE - 1) NUL.

(** Lines 119-122: the contents of [ss]. *)
Definition annotate (show : bool) (file : string) (line : Z) (body : string)
  : string :=
  let ss := EmptyString in
  let ss :=
    if show
    then ss +:+ ("line " +:+ (decimal line +:+ (" in " +:+ (filename file +:+ ": "))))
    else ss in
  ss +:+ body.

Definition log (doh : DefaultOutputHandler) (file : string) (line : Z)
    (level : LogLevel) (m : string) (ap : va_list) : option (list Event) :=
  match output_handler_ doh with
  | Some oh =>
      if bool_decide (logLevel_ doh ≤ level)%Z then
        buf ← format_buffer m ap;
        body ← read_c_str buf;
        let text := annotate (showLineNumbers_ doh) file line body in
        Some [EvFormat; EvCall oh (level_switch level) text]
      else Some []
  | None => Some []
  end.

End Log.

(** The calls of handler methods in a trace, and the number of messages
    formatted. *)
Definition calls (tr : list Event) : list (handler_ptr * Sink * string) :=
  omap (λ e, match e with EvCall oh s t => Some (oh, s, t) | EvFormat => None end) tr.

Definition formats (tr : list Event) : nat :=
  length (filter (λ e, e = EvFormat) tr).

(** ** The outside world and the output handlers *)

(** An open stream [FILE*] is known by the file it writes to, and a file by
    its canonical path: two spellings of a path to one file give one file. *)
Definition FILE := string.

(** The standard streams; the contents of the files, by canonical path; the
    canonical path of the spellings that are not canonical themselves; the
    size beyond which a file stores nothing more ([0] for a device that
    stores nothing, no entry for a file without limit); the paths that cannot
    be opened for appending and the streams whose [fclose] reports an
    error. *)
Record World := mkWorld {
  cout : string;
  cerr : string;
  disk : gmap string string;
  alias : gmap string string;
  size_limit : gmap string nat;
  unopenable : gset string;
  unclosable : gset string
}.

Definition canonical (w : World) (path : string) : FILE :=
  default path (alias w !! path).

(** The first [n] characters of [s]. *)
Fixpoint string_take (n : nat) (s : string) : string :=
  match n, s with
  | S n', String c rest => String c (string_take n' rest)
  | _, _ => EmptyString
  end.

(** The part of [text] that a file holding [old] stores when [text] is
    written at its end: all of it without a limit, what fits under the limit
    otherwise. *)
Definition accepted (limit : option nat) (old text : string) : string :=
  match limit with
  | None => text
  | Some n => string_take (n - String.length old) text
  end.

Definition endl : string := String (ascii_of_nat 10) EmptyString.

Definition write_cout (text : string) (w : World) : World :=
  {| cout := cout w +:+ text; cerr := cerr w; disk := disk w;
     alias := alias w; size_limit := size_limit w;
     unopenable := unopenable w; unclosable := unclosable w |}.

Definition write_cerr (text : string) (w : World) : World :=
  {| cout := cout w; cerr := cerr w +:+ text; disk := disk w;
     alias := alias w; size_limit := size_limit w;
     unopenable := unopenable w; unclosable := unclosable w |}.

(** [fopen(filename, "a")]: a null stream when the path cannot be opened;
    otherwise a stream on the file the path names, which exists afterwards,
    with its contents kept. *)
Definition fopen_a (filename : string) (w : World) : option FILE * World :=
  if decide (filename ∈ unopenable w) then (None, w)
  else
    let file := canonical w filename in
    (Some file,
     {| cout := cout w; cerr := cerr w;
        disk := <[file := default EmptyString (disk w !! file)]> (disk w);
        alias := alias w; size_limit := size_limit w;
        unopenable := unopenable w; unclosable := unclosable w |}).

(** [fprintf(file, ...); fflush(file)], with the results of both calls
    dropped, as the handler does: the flush that follows every write sends
    the text to the end of the file at once, and the file stores the part of
    it that fits; what does not fit is lost, and the failure that [fprintf]
    or [fflush] reports for it is not looked at. *)
Definition fprintf_flush (file : FILE) (text : string) (w : World) : World :=
  let old := default EmptyString (disk w !! file) in
  {| cout := cout w; cerr := cerr w;
     disk := <[file := old +:+ accepted (size_limit w !! file) old text]> (disk w);
     alias := alias w; size_limit := size_limit w;
     unopenable := unopenable w; unclosable := unclosable w |}.

(** [fclose(file) != 0]. *)
Definition fclose_fails (file : FILE) (w : World) : bool :=
  bool_decide (file ∈ unclosable w).

(** The interface [ompl::msg::OutputHandler]: four virtual methods, each
    taking the text and acting on the world. *)
Record OutputHandler := mkOutputHandler {
  error : string -> World -> World;
  warn : string -> World -> World;
  inform : string -> World -> World;
  debug : string -> World -> World
}.

(** *** OutputHandlerSTD *)

Definition OutputHandlerSTD_error (text : string) : World -> World :=
  write_cerr ("Error:   " +:+ (text +:+ endl)).

Definition OutputHandlerSTD_warn (text : string) : World -> World :=
  write_cerr ("Warning: " +:+ (text +:+ endl)).

Definition OutputHandlerSTD_inform (text : string) : World -> World :=
  write_cout ("Info:    " +:+ (text +:+ endl)).

Definition OutputHandlerSTD_debug (text : string) : World -> World :=
  write_cout ("Debug:   " +:+ (text +:+ endl)).

Definition OutputHandlerSTD : OutputHandler :=
  {| error := OutputHandlerSTD_error;
     warn := OutputHandlerSTD_warn;
     inform := OutputHandlerSTD_inform;
     debug := OutputHandlerSTD_debug |}.

(** *** OutputHandlerFile *)

(** [text.c_str()] printed with [%s]: the characters before the first NUL. *)
Definition c_str (text : string) : string :=
  until_nul (String.list_ascii_of_string text).

(** The constructor: the value of the member [file_] and the world after. *)
Definition OutputHandlerFile_new (filename : string) (w : World)
  : option FILE * World :=
  let '(file_, w) := fopen_a filename w in
  match file_ with
  | None =>
      (file_,
       write_cerr ("Unable to open log file: '" +:+ (filename +:+ ("'" +:+ endl))) w)
  | Some _ => (file_, w)
  end.

(** The destructor. *)
Definition OutputHandlerFile_delete (file_ : option FILE) (w : World) : World :=
  match file_ with
  | Some f =>
      if fclose_fails f w then write_cerr ("Error closing logfile" +:+ endl) w
      else w
  | None => w
  end.

Definition OutputHandlerFile_error (file_ : option FILE) (text : string)
  : World -> World :=
  match file_ with
  | Some f => fprintf_flush f ("Error:   " +:+ (c_str text +:+ endl))
  | None => id
  end.

Definition OutputHandlerFile_warn (file_ : option FILE) (text : string)
  : World -> World :=
  match file_ with
  | Some f => fprintf_flush f ("Warning: " +:+ (c_str text +:+ endl))
  | None => id
  end.

Definition OutputHandlerFile_inform (file_ : option FILE) (text : string)
  : World -> World :=
  match file_ with
  | Some f => fprintf_flush f ("Info:    " +:+ (c_str text +:+ endl))
  | None => id
  end.

Definition OutputHandlerFile_debug (file_ : option FILE) (text : string)
  : World -> World :=
  match file_ with
  | Some f => fprintf_flush f ("Debug:   " +:+ (c_str text +:+ endl))
  | None => id
  end.

Definition OutputHandlerFile (file_ : option FILE) : OutputHandler :=
  {| error := OutputHandlerFile_error file_;
     warn := OutputHandlerFile_warn file_;
     inform := OutputHandlerFile_inform file_;
     debug := OutputHandlerFile_debug file_ |}.

(** *** Performing the calls *)

(** A virtual call of one of the four methods. *)
Definition invoke (oh : OutputHandler) (method : Sink) : string -> World -> World :=
  match method with
  | SinkError => error oh
  | SinkWarn => warn oh
  | SinkInform => inform oh
  | SinkDebug => debug oh
  end.

(** The object a handler pointer points to: the built-in console handler, or
    an object of the host application; a dangling pointer has none. *)
Definition deref (objs : gmap positive OutputHandler) (p : handler_ptr)
  : option OutputHandler :=
  match p with
  | std_output_handler_addr => Some OutputHandlerSTD
  | host_addr a => objs !! a
  end.

Definition perform (objs : gmap positive OutputHandler) (e : Event) (w : World)
  : option World :=
  match e with
  | EvFormat => Some w
  | EvCall p method text => oh ← deref objs p; Some (invoke oh method text w)
  end.

Fixpoint perform_all (objs : gmap positive OutputHandler) (tr : list Event)
    (w : World) : option World :=
  match tr with
  | [] => Some w
  | e :: tr' => w' ← perform objs e w; perform_all objs tr' w'
  end.

(** The text that [log] reads back from the buffer for an expansion [s]: at
    most [MAX_BUFFER_SIZE - 1] characters of it, up to its first NUL. *)
Definition truncated_message (s : list ascii) : string :=
  until_nul (take (MAX_BUFFER_SIZE - 1) s).

(** ** Inputs for the worked examples *)

(** A formatter that knows the directive [%s] only: each [%s] is replaced by
    the next argument, and by nothing once the arguments are used up. *)
Fixpoint expand_s (m : string) (ap : list string) : list ascii :=
  match m with
  | EmptyString => []
  | String c rest =>
      match rest with
      | String d rest' =>
          if bool_decide (c = "%"%char ∧ d = "s"%char) then
            match ap with
            | a :: ap' => String.list_ascii_of_string a ++ expand_s rest' ap'
            | [] => expand_s rest' []
            end
          else c :: expand_s rest ap
      | EmptyString => [c]
      end
  end.

(** A stack that holds the letter x everywhere. *)
Definition stack_x (i : nat) : ascii := "x"%char.

(** A message of 1200 characters. *)
Definition long_text : string := String.concat EmptyString (replicate 300 "abcd").

(** A world with empty streams and no file, where one path cannot be opened. *)
Definition world_ro : World :=
  {| cout := EmptyString; cerr := EmptyString; disk := ∅;
     alias := ∅; size_limit := ∅;
     unopenable := {[ "/proc/ompl.log" ]}; unclosable := ∅ |}.

(** ** Sequences of calls *)

(** The calls by which a host application configures the router. *)
Inductive ConfigCall :=
  | CallNoOutputHandler
  | CallRestorePreviousOutputHandler
  | CallUseOutputHandler (oh : option handler_ptr)
  | CallSetLogLevel (level : LogLevel)
  | CallShowLineNumbers (show : bool).

Definition configure (doh : DefaultOutputHandler) (c : ConfigCall)
  : DefaultOutputHandler :=
  match c with
  | CallNoOutputHandler => noOutputHandler doh
  | CallRestorePreviousOutputHandler => restorePreviousOutputHandler doh
  | CallUseOutputHandler oh => useOutputHandler oh doh
  | CallSetLogLevel level => setLogLevel level doh
  | CallShowLineNumbers show => showLineNumbers show doh
  end.

Definition configure_all (cs : list ConfigCall) (doh : DefaultOutputHandler)
  : DefaultOutputHandler :=
  foldl configure doh cs.

(** A handler slot is live when it is null or points to an object. *)
Definition live (objs : gmap positive OutputHandler) (slot : option handler_ptr)
  : Prop :=
  ∀ p, slot = Some p → is_Some (deref objs p).

(** Method calls made one after the other on one handler. *)
Definition invoke_all (oh : OutputHandler) (cs : list (Sink * string)) (w : World)
  : World :=
  foldl (λ w' c, invoke oh c.1 c.2 w') w cs.

(** The tag that the handlers of this file write before the text. *)
Definition tag (method : Sink) : string :=
  match method with
  | SinkError => "Error:   "
  | SinkWarn => "Warning: "
  | SinkInform => "Info:    "
  | SinkDebug => "Debug:   "
  end.

(** The line written for a call by the console handler and by the file
    handler. *)
Definition console_line (c : Sink * string) : string :=
  tag c.1 +:+ (c.2 +:+ endl).

Definition file_line (c : Sink * string) : string :=
  tag c.1 +:+ (c_str c.2 +:+ endl).

(** The calls that the console handler sends to standard error. *)
Definition to_cerr (c : Sink * string) : bool :=
  match c.1 with
  | SinkError | SinkWarn => true
  | SinkInform | SinkDebug => false
  end.

Definition concat_lines (ls : list string) : string :=
  foldr String.append EmptyString ls.

(** A file handler of the host application at address 1, holding an open
    file, and a world where that file has one line already. *)
Definition objs_file : gmap positive OutputHandler :=
  {[ 1%positive := OutputHandlerFile (Some "/tmp/ompl.log") ]}.

Definition world_log : World :=
  {| cout := EmptyString; cerr := EmptyString;
     disk := {[ "/tmp/ompl.log" := "Info:    started" +:+ endl ]};
     alias := {[ "/tmp/./ompl.log" := "/tmp/ompl.log" ]}; size_limit := ∅;
     unopenable := ∅; unclosable := ∅ |}.

(** The same world with no room left but for 7 characters in the file. *)
Definition world_full : World :=
  {| cout := EmptyString; cerr := EmptyString;
     disk := {[ "/tmp/ompl.log" := "Info:    started" +:+ endl ]};
     alias := {[ "/tmp/./ompl.log" := "/tmp/ompl.log" ]};
     size_limit := {[ "/tmp/ompl.log" := 24 ]};
     unopenable := ∅; unclosable := ∅ |}.

(** A host application that installs the file handler, raises the minimum
    level, silences the router and restores the file handler. *)
Definition host_calls : list ConfigCall :=
  [CallUseOutputHandler (Some (host_addr 1)); CallSetLogLevel WARN;
   CallNoOutputHandler; CallRestorePreviousOutputHandler].

Arguments format_buffer {va_list} expand libc garbage m ap.
Arguments log {va_list} expand libc garbage doh file line level m ap.

(** * Properties *)

(** ** The buffer *)

Lemma store_Some (buf : list ascii) (i : nat) (c : ascii) :
  i < length buf → store buf i c = Some (<[i:=c]> buf).
Proof. intros Hi. unfold store. by rewrite decide_True. Qed.

(** Storing [cs] right after [pre] replaces the first characters of what
    follows, when there is room for them. *)
Lemma store_from_app (cs pre tail : list ascii) :
  length cs ≤ length tail →
  store_from (pre ++ tail) (length pre) cs = Some (pre ++ cs ++ drop (length cs) tail).
Proof.
  revert pre tail. induction cs as [|c cs IH]; intros pre tail Hlen.
  - by rewrite drop_0.
  - destruct tail as [|t tail]; simpl in Hlen; [lia|].
    simpl. rewrite store_Some by (rewrite length_app; simpl; lia).
    simpl. rewrite insert_app_r_alt, Nat.sub_diag by lia. simpl.
    replace (pre ++ c :: tail) with ((pre ++ [c]) ++ tail)
      by (by rewrite <- app_assoc).
    replace (S (length pre)) with (length (pre ++ [c]))
      by (rewrite length_app; simpl; lia).
    rewrite IH by lia. by rewrite <- app_assoc.
Qed.

Lemma store_from_0 (cs buf : list ascii) :
  length cs ≤ length buf →
  store_from buf 0 cs = Some (cs ++ drop (length cs) buf).
Proof. intros H. by apply (store_from_app cs [] buf). Qed.

(** Whatever the library and the array held before, formatting into an array
    of [S n] characters and then storing a terminator at index [n] succeeds
    and leaves the first [n] characters of the expansion followed by a
    terminator. *)
Lemma terminated_buffer (libc : Libc) (buf s : list ascii) (n : nat) :
  length buf = S n →
  ∃ r, (vsnprintf libc buf (S n) s ≫= λ b, store b n NUL)
         = Some (take n s ++ NUL :: r)
       ∧ length (take n s ++ NUL :: r) = S n.
Proof.
  intros Hbuf.
  assert (Hshort : ∃ r,
    (store_from buf 0 (take n s ++ [NUL]) ≫= λ b, store b n NUL)
      = Some (take n s ++ NUL :: r)
    ∧ length (take n s ++ NUL :: r) = S n).
  { assert (Ht : length (take n s) ≤ n) by (rewrite length_take; lia).
    rewrite store_from_0 by (rewrite length_app; simpl; lia).
    simpl. rewrite <- app_assoc. simpl.
    set (d := drop _ buf).
    assert (Hd : length (take n s) + S (length d) = S n).
    { subst d. rewrite length_drop, length_app. simpl. lia. }
    rewrite store_Some by (rewrite length_app; simpl; lia).
    rewrite insert_app_r_alt by lia.
    destruct (n - length (take n s)) as [|k] eqn:Hk; simpl.
    - exists d. split; [done|]. rewrite length_app. simpl. lia.
    - exists (<[k:=NUL]> d). split; [done|].
      rewrite length_app. simpl. rewrite length_insert. lia. }
  destruct libc; simpl; [done|].
  destruct (decide (length s < S n)) as [Hlt|Hge].
  - rewrite (take_ge s n) in Hshort |- * by lia. done.
  - destruct (lookup_lt_is_Some_2 s n) as [x Hx]; [lia|].
    rewrite (take_S_r s n x Hx).
    assert (Ht : length (take n s) = n) by (rewrite length_take; lia).
    rewrite store_from_0 by (rewrite length_app; simpl; lia).
    simpl. rewrite drop_ge by (rewrite length_app; simpl; lia).
    rewrite app_nil_r.
    rewrite store_Some by (rewrite length_app; simpl; lia).
    rewrite insert_app_r_alt by lia. rewrite Ht, Nat.sub_diag. simpl.
    exists []. split; [done|]. rewrite length_app. simpl. lia.
Qed.

(** Reading stops at the terminator, whatever follows it. *)
Lemma read_c_str_terminated (t r : list ascii) :
  read_c_str (t ++ NUL :: r) = Some (until_nul t).
Proof.
  induction t as [|c t IH]; simpl.
  - reflexivity.
  - destruct (decide (c = NUL)); [done|]. by rewrite IH.
Qed.

Lemma until_nul_length (s : list ascii) : String.length (until_nul s) ≤ length s.
Proof.
  induction s as [|c s IH]; simpl; [lia|].
  destruct (decide (c = NUL)); simpl; lia.
Qed.

Lemma until_nul_no_nul (s : list ascii) :
  NUL ∉ s → until_nul s = String.string_of_list_ascii s.
Proof.
  induction s as [|c s IH]; intros Hs; simpl; [done|].
  rewrite decide_False by (intros ->; apply Hs; left).
  rewrite IH; [done|]. intros Hin. apply Hs. by right.
Qed.

(** ** The final path component *)


Lemma filename_without_slash (p : string) : has_slash p = false → filename p = p.
Proof.
  destruct p as [|c rest]; simpl; [done|].
  intros [Hc ->]%orb_false_iff. by rewrite Hc.
Qed.


Section LogProperties.

Context {va_list : Type}.
Variable expand : string -> va_list -> list ascii.
Variable libc : Libc.
Variable garbage : nat -> ascii.

Lemma uninitialised_length (n : nat) : length (uninitialised garbage n) = n.
Proof. unfold uninitialised. by rewrite length_fmap, length_seq. Qed.

(** Lines 112-117 never leave the array and leave it terminated. *)
Lemma format_buffer_terminated (m : string) (ap : va_list) :
  ∃ r, format_buffer expand libc garbage m ap
         = Some (take (MAX_BUFFER_SIZE - 1) (expand m ap) ++ NUL :: r)
       ∧ length (take (MAX_BUFFER_SIZE - 1) (expand m ap) ++ NUL :: r)
         = MAX_BUFFER_SIZE.
Proof.
  exact (terminated_buffer libc (uninitialised garbage MAX_BUFFER_SIZE)
           (expand m ap) (MAX_BUFFER_SIZE - 1)
           (uninitialised_length MAX_BUFFER_SIZE)).
Qed.

(** [log], with the buffer handling carried out. *)
Lemma log_unfold (doh : DefaultOutputHandler) (file : string) (line : Z)
    (level : LogLevel) (m : string) (ap : va_list) :
  log expand libc garbage doh file line level m ap =
    match output_handler_ doh with
    | Some oh =>
        if bool_decide (logLevel_ doh ≤ level)%Z then
          Some [EvFormat;
                EvCall oh (level_switch level)
                  (annotate (showLineNumbers_ doh) file line
                     (truncated_message (expand m ap)))]
        else Some []
    | None => Some []
    end.
Proof.
  unfold log. destruct (output_handler_ doh) as [oh|]; [|done].
  case_bool_decide; [|done].
  destruct (format_buffer_terminated m ap) as (r & -> & _).
  simpl. by rewrite read_c_str_terminated.
Qed.

Lemma log_dispatched (doh : DefaultOutputHandler) (oh : handler_ptr)
    (file : string) (line : Z) (level : LogLevel) (m : string) (ap : va_list) :
  output_handler_ doh = Some oh →
  (logLevel_ doh ≤ level)%Z →
  log expand libc garbage doh file line level m ap =
    Some [EvFormat;
          EvCall oh (level_switch level)
            (annotate (showLineNumbers_ doh) file line
               (truncated_message (expand m ap)))].
Proof. intros Hoh Hge. rewrite log_unfold, Hoh. by rewrite bool_decide_true. Qed.

Lemma log_gated (doh : DefaultOutputHandler)
    (file : string) (line : Z) (level : LogLevel) (m : string) (ap : va_list) :
  output_handler_ doh = None ∨ (level < logLevel_ doh)%Z →
  log expand libc garbage doh file line level m ap = Some [].
Proof.
  intros H. rewrite log_unfold.
  destruct (output_handler_ doh); [|done].
  destruct H as [|H]; [done|]. rewrite bool_decide_false; [done|lia].
Qed.

(** C1: when a handler is installed and the level is at least the minimum
    level, [log] formats once and makes exactly one call, on the installed
    handler, of the method that matches the level (DEBUG->debug,
    INFO->inform, WARN->warn, ERROR->error); when no handler is installed
    or the level is strictly below the minimum, [log] makes no call and
    formats nothing. *)
Theorem log_dispatches_once_or_not_at_all (doh : DefaultOutputHandler)
    (file : string) (line : Z) (level : LogLevel) (m : string) (ap : va_list) :
  (∀ oh, output_handler_ doh = Some oh → (logLevel_ doh ≤ level)%Z →
     ∃ tr method text,
       log expand libc garbage doh file line level m ap = Some tr
       ∧ calls tr = [(oh, method, text)]
       ∧ formats tr = 1
       ∧ (level = DEBUG → method = SinkDebug)
       ∧ (level = INFO → method = SinkInform)
       ∧ (level = WARN → method = SinkWarn)
       ∧ (level = ERROR → method = SinkError))
  ∧ (output_handler_ doh = None ∨ (level < logLevel_ doh)%Z →
     ∃ tr,
       log expand libc garbage doh file line level m ap = Some tr
       ∧ calls tr = []
       ∧ formats tr = 0).
Proof.
  split.
  - intros oh Hoh Hge. eexists _, (level_switch level), _.
    split; [by apply log_dispatched|].
    repeat split; by intros ->.
  - intros H. exists []. by rewrite log_gated.
Qed.

(** C5: when the expansion of the format does not fit in the buffer, the
    stores of lines 115-117 all fall inside the array, which then holds the
    first [MAX_BUFFER_SIZE - 1] characters of the expansion followed by a
    terminator in its last cell; reading the message back stops inside the
    array, and [log] hands the truncated text to the handler like any other
    message, with nothing else reported. *)
Theorem log_truncates_long_message (doh : DefaultOutputHandler)
    (oh : handler_ptr) (file : string) (line : Z) (level : LogLevel)
    (m : string) (ap : va_list) :
  output_handler_ doh = Some oh →
  (logLevel_ doh ≤ level)%Z →
  MAX_BUFFER_SIZE ≤ length (expand m ap) →
  ∃ buf body,
    format_buffer expand libc garbage m ap = Some buf
    ∧ buf = take (MAX_BUFFER_SIZE - 1) (expand m ap) ++ [NUL]
    ∧ length buf = MAX_BUFFER_SIZE
    ∧ buf !! (MAX_BUFFER_SIZE - 1) = Some NUL
    ∧ read_c_str buf = Some body
    ∧ String.length body ≤ MAX_BUFFER_SIZE - 1
    ∧ log expand libc garbage doh file line level m ap
      = Some [EvFormat;
              EvCall oh (level_switch level)
                (annotate (showLineNumbers_ doh) file line body)].
Proof.
  intros Hoh Hge Hlong.
  destruct (format_buffer_terminated m ap) as (r & Hbuf & Hlen).
  assert (Hmax : MAX_BUFFER_SIZE = S (MAX_BUFFER_SIZE - 1)) by reflexivity.
  assert (Ht : length (take (MAX_BUFFER_SIZE - 1) (expand m ap))
               = MAX_BUFFER_SIZE - 1) by (rewrite length_take; lia).
  assert (r = []) as ->.
  { rewrite length_app, Ht in Hlen. destruct r; [done|].
    cbn [length] in Hlen. lia. }
  exists (take (MAX_BUFFER_SIZE - 1) (expand m ap) ++ [NUL]),
    (truncated_message (expand m ap)).
  repeat split.
  - done.
  - done.
  - by apply list_lookup_middle.
  - apply read_c_str_terminated.
  - unfold truncated_message.
    etrans; [apply until_nul_length|]. by rewrite Ht.
  - by apply log_dispatched.
Qed.


(** C7: a call that passes the handler and level checks with the level
    NONE, or with a value that is none of the five enumerators, calls the
    handler's error method, exactly as a dispatched call at level ERROR
    does; [log] returns nothing else. *)
Theorem log_unrecognized_level_calls_error (doh : DefaultOutputHandler)
    (oh : handler_ptr) (file : string) (line : Z) (level : LogLevel)
    (m : string) (ap : va_list) :
  output_handler_ doh = Some oh →
  (logLevel_ doh ≤ level)%Z →
  level = NONE
  ∨ (level ≠ DEBUG ∧ level ≠ INFO ∧ level ≠ WARN ∧ level ≠ ERROR ∧ level ≠ NONE) →
  ∃ text,
    log expand libc garbage doh file line level m ap
      = Some [EvFormat; EvCall oh SinkError text]
    ∧ log expand libc garbage doh file line level m ap
      = log expand libc garbage (setLogLevel ERROR doh) file line ERROR m ap.
Proof.
  intros Hoh Hge Hlevel.
  assert (Hsw : level_switch level = SinkError).
  { destruct Hlevel as [->|(? & ? & ? & ? & ?)]; [done|].
    unfold level_switch. by repeat (rewrite decide_False by done). }
  eexists. rewrite (log_dispatched doh oh) by done.
  rewrite (log_dispatched (setLogLevel ERROR doh) oh) by done.
  by rewrite Hsw.
Qed.

(** C9: after [setLogLevel(NONE)] a call at any of the levels DEBUG, INFO,
    WARN and ERROR makes no call and formats nothing, each of them being
    strictly below NONE; a call at level NONE passes the check and, a
    handler being installed, calls its error method. *)
Theorem log_after_setLogLevel_NONE (doh : DefaultOutputHandler)
    (file : string) (line : Z) (m : string) (ap : va_list) :
  (DEBUG < NONE ∧ INFO < NONE ∧ WARN < NONE ∧ ERROR < NONE)%Z
  ∧ (∀ level, level ∈ [DEBUG; INFO; WARN; ERROR] →
       log expand libc garbage (setLogLevel NONE doh) file line level m ap
         = Some [])
  ∧ (∀ oh, output_handler_ doh = Some oh →
       ∃ text,
         log expand libc garbage (setLogLevel NONE doh) file line NONE m ap
           = Some [EvFormat; EvCall oh SinkError text]).
Proof.
  split; [repeat split; reflexivity|]. split.
  - intros level Hin. apply log_gated. right. simpl.
    repeat (apply elem_of_cons in Hin as [->|Hin]; [done|]).
    by apply elem_of_nil in Hin.
  - intros oh Hoh. eexists.
    by rewrite (log_dispatched (setLogLevel NONE doh) oh).
Qed.

(** C10: in the state built by the constructor the previous handler is the
    current one, the built-in console handler; [restorePreviousOutputHandler]
    called first therefore changes nothing: the console handler stays
    installed, and a message of any level from DEBUG up is written to the
    console, on standard output or standard error. *)
Theorem restorePrevious_on_initial_state (objs : gmap positive OutputHandler)
    (file : string) (line : Z) (level : LogLevel) (m : string) (ap : va_list)
    (w : World) :
  previous_output_handler_ DOH_init = output_handler_ DOH_init
  ∧ output_handler_ DOH_init = Some std_output_handler_addr
  ∧ deref objs std_output_handler_addr = Some OutputHandlerSTD
  ∧ restorePreviousOutputHandler DOH_init = DOH_init
  ∧ getOutputHandler (restorePreviousOutputHandler DOH_init)
    = Some std_output_handler_addr
  ∧ ((DEBUG ≤ level)%Z →
     ∃ tr text tag w',
       log expand libc garbage (restorePreviousOutputHandler DOH_init)
         file line level m ap = Some tr
       ∧ calls tr = [(std_output_handler_addr, level_switch level, text)]
       ∧ perform_all objs tr w = Some w'
       ∧ (w' = write_cout (tag +:+ (text +:+ endl)) w
          ∨ w' = write_cerr (tag +:+ (text +:+ endl)) w)).
Proof.
  do 5 (split; [done|]).
  intros Hge.
  eexists _, _,
    (match level_switch level with
     | SinkError => "Error:   " | SinkWarn => "Warning: "
     | SinkInform => "Info:    " | SinkDebug => "Debug:   "
     end), _.
  split; [by apply (log_dispatched _ std_output_handler_addr)|].
  split; [done|]. split; [done|].
  destruct (level_switch level); simpl; eauto.
Qed.

End LogProperties.

(** ** The router state *)

(** C2: [noOutputHandler] followed by [restorePreviousOutputHandler] leaves
    installed the handler that was current before [noOutputHandler] (which
    itself leaves no handler installed). *)
Theorem noOutputHandler_then_restorePrevious (doh : DefaultOutputHandler) :
  getOutputHandler (noOutputHandler doh) = None
  ∧ getOutputHandler (restorePreviousOutputHandler (noOutputHandler doh))
    = getOutputHandler doh.
Proof. by split. Qed.

(** C3: two calls of [restorePreviousOutputHandler] in a row give back the
    router state of before the first: the swap of the current and previous
    handlers is its own inverse. *)
Theorem restorePrevious_twice (doh : DefaultOutputHandler) :
  restorePreviousOutputHandler (restorePreviousOutputHandler doh) = doh.
Proof. by destruct doh. Qed.

(** C4: [useOutputHandler] with a null handler gives the same router state
    as [noOutputHandler]: no current handler, and the formerly current one
    as previous handler. *)
Theorem useOutputHandler_null_is_noOutputHandler (doh : DefaultOutputHandler) :
  useOutputHandler None doh = noOutputHandler doh
  ∧ output_handler_ (useOutputHandler None doh) = None
  ∧ previous_output_handler_ (useOutputHandler None doh) = output_handler_ doh.
Proof. by repeat split. Qed.

(** ** The file handler *)

Lemma OutputHandlerFile_null_invoke (method : Sink) (text : string) (w : World) :
  invoke (OutputHandlerFile None) method text w = w.
Proof. by destruct method. Qed.

(** C8: when the file cannot be opened for appending, the constructor
    returns with a null [file_] after adding to standard error one line,
    "Unable to open log file: '<path>'", that names the path, standard
    output and the files being left as they were; from then on every call
    of the four methods, and any sequence of them, leaves the world as it
    is, and so does the destructor. *)
Theorem OutputHandlerFile_open_failure (filename : string) (w : World) :
  (fopen_a filename w).1 = None →
  ∃ file_ w1,
    OutputHandlerFile_new filename w = (file_, w1)
    ∧ file_ = None
    ∧ cerr w1
      = cerr w +:+ ("Unable to open log file: '" +:+ (filename +:+ ("'" +:+ endl)))
    ∧ cout w1 = cout w
    ∧ disk w1 = disk w
    ∧ w1 = write_cerr ("Unable to open log file: '" +:+ (filename +:+ ("'" +:+ endl))) w
    ∧ (∀ method text w', invoke (OutputHandlerFile file_) method text w' = w')
    ∧ (∀ (cs : list (Sink * string)) w',
         foldl (λ w'' c, invoke (OutputHandlerFile file_) c.1 c.2 w'') w' cs = w')
    ∧ (∀ w', OutputHandlerFile_delete file_ w' = w').
Proof.
  intros Hfail. unfold OutputHandlerFile_new.
  destruct (fopen_a filename w) as [file_ w0] eqn:Hopen. simpl in Hfail. subst file_.
  assert (w0 = w) as ->.
  { unfold fopen_a in Hopen. by case_decide; simplify_eq. }
  eexists None, _. split; [reflexivity|].
  do 5 (split; [reflexivity|]).
  split; [|split; [|done]].
  - intros. apply OutputHandlerFile_null_invoke.
  - intros cs. induction cs as [|[method text] cs IH]; intros w'; [done|].
    simpl. rewrite OutputHandlerFile_null_invoke. apply IH.
Qed.

(** * Worked examples *)

Example log_info_example :
  log expand_s C99 stack_x DOH_init "/src/geometric/RRT.cpp" 117 INFO
    "Created %s states" ["42"]
  = Some [EvFormat; EvCall std_output_handler_addr SinkInform "Created 42 states"].
Proof. vm_compute. reflexivity. Qed.

Example log_line_numbers_example :
  log expand_s PreC99 stack_x (showLineNumbers true DOH_init)
    "/src/geometric/RRT.cpp" 117 WARN "Created %s states" ["42"]
  = Some [EvFormat;
          EvCall std_output_handler_addr SinkWarn
            "line 117 in RRT.cpp: Created 42 states"].
Proof. vm_compute. reflexivity. Qed.

Example log_console_example :
  (tr ← log expand_s C99 stack_x DOH_init "RRT.cpp" 1 ERROR "no %s" ["goal"];
   w ← perform_all ∅ tr world_ro;
   Some (cout w, cerr w))
  = Some (EmptyString, "Error:   no goal" +:+ endl).
Proof. vm_compute. reflexivity. Qed.

Example file_handler_appends_example :
  (let '(file_, w) := OutputHandlerFile_new "/tmp/ompl.log" world_ro in
   let w := warn (OutputHandlerFile file_) "slow" w in
   let w := debug (OutputHandlerFile file_) "done" w in
   (file_, cerr w, disk w !! "/tmp/ompl.log"))
  = (Some "/tmp/ompl.log", EmptyString,
     Some ("Warning: slow" +:+ (endl +:+ ("Debug:   done" +:+ endl)))).
Proof. vm_compute. reflexivity. Qed.

(** An INFO message on the initial router is dispatched once; with the
    minimum level raised to WARN it is dropped. *)
Lemma log_dispatches_once_or_not_at_all_witness :
  (∃ tr method text,
     log expand_s C99 stack_x DOH_init "RRT.cpp" 117 INFO "Created %s states" ["42"]
       = Some tr
     ∧ calls tr = [(std_output_handler_addr, method, text)]
     ∧ formats tr = 1
     ∧ method = SinkInform)
  ∧ (∃ tr,
       log expand_s C99 stack_x (setLogLevel WARN DOH_init) "RRT.cpp" 117 INFO
         "Created %s states" ["42"] = Some tr
       ∧ calls tr = [] ∧ formats tr = 0).
Proof.
  split.
  - destruct (proj1 (log_dispatches_once_or_not_at_all expand_s C99 stack_x
                DOH_init "RRT.cpp" 117 INFO "Created %s states" ["42"])
                std_output_handler_addr eq_refl ltac:(by vm_compute))
      as (tr & method & text & Hlog & Hcalls & Hformats & _ & Hinfo & _).
    exists tr, method, text. auto.
  - apply (proj2 (log_dispatches_once_or_not_at_all expand_s C99 stack_x
             (setLogLevel WARN DOH_init) "RRT.cpp" 117 INFO
             "Created %s states" ["42"])).
    right. by vm_compute.
Defined.

(** A message of 1200 characters, with a library that does not terminate on
    overflow. *)
Lemma log_truncates_long_message_witness :
  MAX_BUFFER_SIZE ≤ length (expand_s "%s" [long_text])
  ∧ ∃ buf body,
      format_buffer expand_s PreC99 stack_x "%s" [long_text] = Some buf
      ∧ buf = take (MAX_BUFFER_SIZE - 1) (expand_s "%s" [long_text]) ++ [NUL]
      ∧ length buf = MAX_BUFFER_SIZE
      ∧ buf !! (MAX_BUFFER_SIZE - 1) = Some NUL
      ∧ read_c_str buf = Some body
      ∧ String.length body ≤ MAX_BUFFER_SIZE - 1
      ∧ log expand_s PreC99 stack_x DOH_init "RRT.cpp" 117 DEBUG "%s" [long_text]
        = Some [EvFormat;
                EvCall std_output_handler_addr (level_switch DEBUG)
                  (annotate (showLineNumbers_ DOH_init) "RRT.cpp" 117 body)].
Proof.
  assert (Hlong : MAX_BUFFER_SIZE ≤ length (expand_s "%s" [long_text])).
  { apply Nat.leb_le. vm_compute. reflexivity. }
  split; [exact Hlong|].
  apply (log_truncates_long_message expand_s PreC99 stack_x DOH_init
           std_output_handler_addr "RRT.cpp" 117 DEBUG "%s" [long_text]).
  - reflexivity.
  - by vm_compute.
  - exact Hlong.
Defined.


(** The value 7 is not an enumerator of [LogLevel]. *)
Lemma log_unrecognized_level_calls_error_witness :
  ∃ text,
    log expand_s C99 stack_x DOH_init "RRT.cpp" 117 7%Z "Created %s states" ["42"]
      = Some [EvFormat; EvCall std_output_handler_addr SinkError text]
    ∧ log expand_s C99 stack_x DOH_init "RRT.cpp" 117 7%Z "Created %s states" ["42"]
      = log expand_s C99 stack_x (setLogLevel ERROR DOH_init) "RRT.cpp" 117 ERROR
          "Created %s states" ["42"].
Proof.
  apply (log_unrecognized_level_calls_error expand_s C99 stack_x DOH_init
           std_output_handler_addr "RRT.cpp" 117 7%Z "Created %s states" ["42"]).
  - reflexivity.
  - by vm_compute.
  - right. by vm_compute.
Defined.

(** With the minimum level NONE, ERROR is dropped and NONE is dispatched. *)
Lemma log_after_setLogLevel_NONE_witness :
  log expand_s C99 stack_x (setLogLevel NONE DOH_init) "RRT.cpp" 117 ERROR
    "Created %s states" ["42"] = Some []
  ∧ ∃ text,
      log expand_s C99 stack_x (setLogLevel NONE DOH_init) "RRT.cpp" 117 NONE
        "Created %s states" ["42"]
      = Some [EvFormat; EvCall std_output_handler_addr SinkError text].
Proof.
  pose proof (log_after_setLogLevel_NONE expand_s C99 stack_x DOH_init
                "RRT.cpp" 117 "Created %s states" ["42"])
    as (_ & Hbelow & Hnone).
  split.
  - apply Hbelow. unfold DEBUG, INFO, WARN, ERROR. set_solver.
  - apply (Hnone std_output_handler_addr). reflexivity.
Defined.

(** An INFO message after [restorePreviousOutputHandler] on the initial
    router. *)
Lemma restorePrevious_on_initial_state_witness :
  (DEBUG ≤ INFO)%Z
  ∧ ∃ tr text tag w',
      log expand_s C99 stack_x (restorePreviousOutputHandler DOH_init)
        "RRT.cpp" 117 INFO "Created %s states" ["42"] = Some tr
      ∧ calls tr = [(std_output_handler_addr, level_switch INFO, text)]
      ∧ perform_all ∅ tr world_ro = Some w'
      ∧ (w' = write_cout (tag +:+ (text +:+ endl)) world_ro
         ∨ w' = write_cerr (tag +:+ (text +:+ endl)) world_ro).
Proof.
  assert (Hge : (DEBUG ≤ INFO)%Z) by (by vm_compute).
  split; [exact Hge|].
  pose proof (restorePrevious_on_initial_state expand_s C99 stack_x ∅
                "RRT.cpp" 117 INFO "Created %s states" ["42"] world_ro)
    as (_ & _ & _ & _ & _ & Hlog).
  exact (Hlog Hge).
Defined.

(** A handler built on a path that cannot be opened. *)
Lemma OutputHandlerFile_open_failure_witness :
  (fopen_a "/proc/ompl.log" world_ro).1 = None
  ∧ ∃ file_ w1,
      OutputHandlerFile_new "/proc/ompl.log" world_ro = (file_, w1)
      ∧ file_ = None
      ∧ cerr w1
        = cerr world_ro
          +:+ ("Unable to open log file: '" +:+ ("/proc/ompl.log" +:+ ("'" +:+ endl)))
      ∧ cout w1 = cout world_ro
      ∧ disk w1 = disk world_ro
      ∧ w1 = write_cerr
               ("Unable to open log file: '" +:+ ("/proc/ompl.log" +:+ ("'" +:+ endl)))
               world_ro
      ∧ (∀ method text w', invoke (OutputHandlerFile file_) method text w' = w')
      ∧ (∀ (cs : list (Sink * string)) w',
           foldl (λ w'' c, invoke (OutputHandlerFile file_) c.1 c.2 w'') w' cs = w')
      ∧ (∀ w', OutputHandlerFile_delete file_ w' = w').
Proof.
  assert (Hfail : (fopen_a "/proc/ompl.log" world_ro).1 = None)
    by (vm_compute; reflexivity).
  split; [exact Hfail|].
  exact (OutputHandlerFile_open_failure "/proc/ompl.log" world_ro Hfail).
Defined.

(** * Further properties *)

(** ** Strings *)

Lemma string_app_assoc (a b c : string) : (a +:+ b) +:+ c = a +:+ (b +:+ c).
Proof. induction a as [|x a IH]; [done|]. exact (f_equal (String x) IH). Qed.

Lemma string_app_nil_r (a : string) : a +:+ EmptyString = a.
Proof. induction a as [|x a IH]; [done|]. exact (f_equal (String x) IH). Qed.

Lemma until_nul_free (s : list ascii) :
  NUL ∉ String.list_ascii_of_string (until_nul s).
Proof.
  induction s as [|c s IH]; simpl; [apply not_elem_of_nil|].
  destruct (decide (c = NUL)); simpl; [apply not_elem_of_nil|].
  apply not_elem_of_cons. split; [congruence|done].
Qed.

Lemma until_nul_prefix (s : list ascii) :
  String.list_ascii_of_string (until_nul s) `prefix_of` s.
Proof.
  induction s as [|c s IH]; simpl; [done|].
  destruct (decide (c = NUL)); simpl; [apply prefix_nil|].
  by apply prefix_cons.
Qed.

Lemma until_nul_stops (a b : list ascii) :
  NUL ∉ a → until_nul (a ++ NUL :: b) = String.string_of_list_ascii a.
Proof.
  induction a as [|c a IH]; intros Ha; simpl; [done|].
  apply not_elem_of_cons in Ha as [Hc Ha].
  rewrite decide_False by congruence. by rewrite IH.
Qed.

Lemma list_ascii_of_string_app (a b : string) :
  String.list_ascii_of_string (a +:+ b)
  = String.list_ascii_of_string a ++ String.list_ascii_of_string b.
Proof. induction a as [|x a IH]; [done|]. exact (f_equal (cons x) IH). Qed.

Lemma string_length_app (a b : string) :
  String.length (a +:+ b) = String.length a + String.length b.
Proof. induction a as [|x a IH]; [done|]. exact (f_equal S IH). Qed.

Lemma string_take_length (n : nat) (s : string) :
  String.length (string_take n s) = n `min` String.length s.
Proof.
  revert s. induction n as [|n IH]; intros [|c s]; simpl; try done.
  by rewrite IH.
Qed.

Lemma string_take_0 (s : string) : string_take 0 s = EmptyString.
Proof. by destruct s. Qed.

Lemma string_take_all (n : nat) (s : string) :
  String.length s ≤ n → string_take n s = s.
Proof.
  revert s. induction n as [|n IH]; intros [|c s] Hlen; simpl in *; try done.
  - lia.
  - rewrite IH; [done|lia].
Qed.

Lemma string_take_app (n : nat) (a b : string) :
  string_take n (a +:+ b)
  = string_take n a +:+ string_take (n - String.length a) b.
Proof.
  revert n. induction a as [|x a IH]; intros n.
  - change (EmptyString +:+ b) with b. simpl.
    rewrite Nat.sub_0_r. by destruct n.
  - destruct n as [|n]; [by rewrite !string_take_0|].
    change (String x a +:+ b) with (String x (a +:+ b)). simpl.
    rewrite IH. done.
Qed.

(** Writing two texts one after the other stores what writing them at once
    stores. *)
Lemma accepted_app (limit : option nat) (old a b : string) :
  accepted limit old (a +:+ b)
  = accepted limit old a +:+ accepted limit (old +:+ accepted limit old a) b.
Proof.
  destruct limit as [n|]; simpl; [|done].
  rewrite string_take_app. f_equal. f_equal.
  rewrite string_length_app, string_take_length. lia.
Qed.

(** ** The router *)

Lemma restorePrevious_iter (n : nat) (doh : DefaultOutputHandler) :
  Nat.iter n restorePreviousOutputHandler doh
  = if Nat.even n then doh else restorePreviousOutputHandler doh.
Proof.
  induction n as [n IH] using (well_founded_induction lt_wf).
  destruct n as [|[|n]]; [done..|].
  rewrite !Nat.iter_succ, IH by lia. simpl.
  destruct (Nat.even n); by destruct doh.
Qed.

Section FurtherLogProperties.

Context {va_list : Type}.
Variable expand : string -> va_list -> list ascii.
Variable libc : Libc.
Variable garbage : nat -> ascii.

(** X1: for every message, short or long, and either behaviour of the C
    library, [log] finishes without an access outside the buffer; the text
    of a call it makes is the annotation followed by a body of at most
    [MAX_BUFFER_SIZE - 1] characters, free of NUL, that is a prefix of the
    expansion of the format. *)
Theorem log_total_and_bounded (doh : DefaultOutputHandler) (file : string)
    (line : Z) (level : LogLevel) (m : string) (ap : va_list) :
  (∃ buf body,
     format_buffer expand libc garbage m ap = Some buf
     ∧ length buf = MAX_BUFFER_SIZE
     ∧ read_c_str buf = Some body)
  ∧ ∃ tr,
      log expand libc garbage doh file line level m ap = Some tr
      ∧ ∀ oh method text, (oh, method, text) ∈ calls tr →
          ∃ body,
            text = annotate (showLineNumbers_ doh) file line body
            ∧ String.length body ≤ MAX_BUFFER_SIZE - 1
            ∧ (NUL ∉ String.list_ascii_of_string body)
            ∧ (String.list_ascii_of_string body `prefix_of` expand m ap).
Proof.
  split.
  - destruct (format_buffer_terminated expand libc garbage m ap) as (r & Hbuf & Hlen).
    eexists _, _. split; [exact Hbuf|]. split; [exact Hlen|].
    apply read_c_str_terminated.
  - rewrite log_unfold. destruct (output_handler_ doh) as [oh|].
    + case_bool_decide.
      * eexists. split; [done|]. intros oh' method text Hin.
        apply list_elem_of_singleton in Hin. simplify_eq.
        exists (truncated_message (expand m ap)). split; [done|].
        unfold truncated_message. split; [|split].
        -- etrans; [apply until_nul_length|]. rewrite length_take. lia.
        -- apply until_nul_free.
        -- etrans; [apply until_nul_prefix|]. apply prefix_take.
      * exists []. split; [done|]. intros ??? Hin. by apply elem_of_nil in Hin.
    + exists []. split; [done|]. intros ??? Hin. by apply elem_of_nil in Hin.
Qed.

(** X2: a message whose expansion is shorter than the buffer and has no NUL
    reaches the handler whole. *)
Theorem log_short_message_intact (doh : DefaultOutputHandler) (oh : handler_ptr)
    (file : string) (line : Z) (level : LogLevel) (m : string) (ap : va_list) :
  output_handler_ doh = Some oh →
  (logLevel_ doh ≤ level)%Z →
  length (expand m ap) < MAX_BUFFER_SIZE →
  NUL ∉ expand m ap →
  log expand libc garbage doh file line level m ap
  = Some [EvFormat;
          EvCall oh (level_switch level)
            (annotate (showLineNumbers_ doh) file line
               (String.string_of_list_ascii (expand m ap)))].
Proof.
  intros Hoh Hge Hshort Hnul.
  assert (Hmax : MAX_BUFFER_SIZE = S (MAX_BUFFER_SIZE - 1)) by reflexivity.
  rewrite (log_dispatched expand libc garbage doh oh) by done.
  unfold truncated_message. rewrite take_ge by lia.
  by rewrite until_nul_no_nul.
Qed.

(** X3: what [log] does depends neither on what the stack held where the
    buffer is allocated nor on which of the two behaviours the C library
    has. *)
Theorem log_independent_of_stack_and_libc (libc' : Libc) (garbage' : nat -> ascii)
    (doh : DefaultOutputHandler) (file : string) (line : Z) (level : LogLevel)
    (m : string) (ap : va_list) :
  log expand libc garbage doh file line level m ap
  = log expand libc' garbage' doh file line level m ap.
Proof. by rewrite !log_unfold. Qed.

(** X4: the level check is monotone: a message dispatched at some level is
    dispatched, with the same text and to the same handler, at every higher
    level and under every lower minimum level. *)
Theorem log_level_monotone (doh : DefaultOutputHandler) (oh : handler_ptr)
    (method : Sink) (text : string) (file : string) (line : Z)
    (level level' minimum' : LogLevel) (m : string) (ap : va_list) :
  log expand libc garbage doh file line level m ap
    = Some [EvFormat; EvCall oh method text] →
  (level ≤ level')%Z →
  (minimum' ≤ logLevel_ doh)%Z →
  log expand libc garbage (setLogLevel minimum' doh) file line level' m ap
  = Some [EvFormat; EvCall oh (level_switch level') text].
Proof.
  rewrite !log_unfold. simpl. intros Hlog Hlevel Hmin.
  destruct (output_handler_ doh) as [oh'|]; [|done].
  case_bool_decide; [|done]. simplify_eq.
  rewrite bool_decide_true by lia. done.
Qed.

(** X5: the methods warn, inform and debug are called for their own level
    only; a call of error comes from the level ERROR or from a value that is
    none of DEBUG, INFO and WARN. *)
Theorem log_method_determines_level (doh : DefaultOutputHandler)
    (file : string) (line : Z) (level : LogLevel) (m : string) (ap : va_list)
    (tr : list Event) (oh : handler_ptr) (method : Sink) (text : string) :
  log expand libc garbage doh file line level m ap = Some tr →
  (oh, method, text) ∈ calls tr →
  match method with
  | SinkDebug => level = DEBUG
  | SinkInform => level = INFO
  | SinkWarn => level = WARN
  | SinkError => level ≠ DEBUG ∧ level ≠ INFO ∧ level ≠ WARN
  end.
Proof.
  rewrite log_unfold. intros Hlog Hin.
  assert (method = level_switch level) as ->.
  { destruct (output_handler_ doh); [case_bool_decide|]; simplify_eq;
      try (by apply elem_of_nil in Hin).
    apply list_elem_of_singleton in Hin. by simplify_eq. }
  unfold level_switch. repeat case_decide; subst; done.
Qed.

(** X6: [log] looks at the current handler, the minimum level and the
    line-number flag only, so disabling or replacing the handler and then
    restoring the previous one gives back the logging of before; in between,
    with the handler disabled, [log] does nothing. *)
Theorem log_after_restore_is_as_before (doh : DefaultOutputHandler)
    (oh : option handler_ptr) (file : string) (line : Z) (level : LogLevel)
    (m : string) (ap : va_list) :
  log expand libc garbage (noOutputHandler doh) file line level m ap = Some []
  ∧ log expand libc garbage (restorePreviousOutputHandler (noOutputHandler doh))
      file line level m ap
    = log expand libc garbage doh file line level m ap
  ∧ log expand libc garbage (restorePreviousOutputHandler (useOutputHandler oh doh))
      file line level m ap
    = log expand libc garbage doh file line level m ap.
Proof. by rewrite !log_unfold. Qed.

(** X7: the history has one slot: after two calls of [noOutputHandler] in a
    row the handler is lost, and however often the previous handler is
    restored no handler is installed and [log] does nothing. *)
Theorem noOutputHandler_twice_loses_handler (n : nat) (doh : DefaultOutputHandler)
    (file : string) (line : Z) (level : LogLevel) (m : string) (ap : va_list) :
  getOutputHandler
    (Nat.iter n restorePreviousOutputHandler (noOutputHandler (noOutputHandler doh)))
  = None
  ∧ log expand libc garbage
      (Nat.iter n restorePreviousOutputHandler (noOutputHandler (noOutputHandler doh)))
      file line level m ap
    = Some [].
Proof.
  rewrite restorePrevious_iter, !log_unfold. by destruct (Nat.even n).
Qed.

End FurtherLogProperties.

(** X8: after two handlers are installed one after the other, restoring
    the previous handler [n] times toggles between the two: the second is
    current for even [n], the first for odd [n], and the handler of before
    the two installs is not brought back. *)
Theorem restorePrevious_toggles_last_two (n : nat) (a b : option handler_ptr)
    (doh : DefaultOutputHandler) :
  getOutputHandler
    (Nat.iter n restorePreviousOutputHandler
       (useOutputHandler b (useOutputHandler a doh)))
  = if Nat.even n then b else a.
Proof. rewrite restorePrevious_iter. by destruct (Nat.even n). Qed.

(** X9: after a call of [setLogLevel], calls that disable, restore or
    replace the handler or set the line-number flag leave the minimum level
    as it was set. *)
Theorem configure_keeps_last_level (cs cs' : list ConfigCall) (level : LogLevel)
    (doh : DefaultOutputHandler) :
  (∀ level', CallSetLogLevel level' ∉ cs') →
  getLogLevel (configure_all (cs ++ CallSetLogLevel level :: cs') doh) = level.
Proof.
  intros Hnone. unfold configure_all. rewrite foldl_app. simpl.
  generalize (foldl configure doh cs). intros doh0.
  assert (Hinv : ∀ d, getLogLevel (foldl configure d cs') = getLogLevel d).
  { induction cs' as [|c cs' IH]; intros d; [done|]. simpl.
    rewrite IH.
    - destruct c as [| | |l|]; try done. exfalso. apply (Hnone l). left.
    - intros level' Hin. apply (Hnone level'). by right. }
  by rewrite Hinv.
Qed.

(** ** The handlers *)

Lemma c_str_until_nul (s : list ascii) : c_str (until_nul s) = until_nul s.
Proof.
  unfold c_str. rewrite until_nul_no_nul by apply until_nul_free.
  apply String.string_of_list_ascii_of_string.
Qed.

Lemma invoke_OutputHandlerSTD (method : Sink) (text : string) (w : World) :
  invoke OutputHandlerSTD method text w
  = if to_cerr (method, text) then write_cerr (console_line (method, text)) w
    else write_cout (console_line (method, text)) w.
Proof. by destruct method. Qed.

Lemma invoke_OutputHandlerFile (f : FILE) (method : Sink) (text : string) (w : World) :
  invoke (OutputHandlerFile (Some f)) method text w
  = fprintf_flush f (file_line (method, text)) w.
Proof. by destruct method. Qed.

Lemma invoke_all_cons (oh : OutputHandler) (method : Sink) (text : string)
    (cs : list (Sink * string)) (w : World) :
  invoke_all oh ((method, text) :: cs) w = invoke_all oh cs (invoke oh method text w).
Proof. reflexivity. Qed.

(** X10: the console handler sends the error and warn calls to standard
    error and the inform and debug calls to standard output, one tagged line
    per call, in the order of the calls on each stream, and touches no
    file. *)
Theorem OutputHandlerSTD_splits_streams (cs : list (Sink * string)) (w : World) :
  cout (invoke_all OutputHandlerSTD cs w)
  = cout w +:+ concat_lines (console_line <$> filter (λ c, to_cerr c = false) cs)
  ∧ cerr (invoke_all OutputHandlerSTD cs w)
    = cerr w +:+ concat_lines (console_line <$> filter (λ c, to_cerr c = true) cs)
  ∧ disk (invoke_all OutputHandlerSTD cs w) = disk w.
Proof.
  revert w. induction cs as [|c cs IH]; intros w.
  - simpl. by rewrite !string_app_nil_r.
  - destruct c as [method text].
    rewrite !invoke_all_cons, invoke_OutputHandlerSTD.
    rewrite !filter_cons.
    destruct (to_cerr (method, text)) eqn:Hc;
      destruct (IH (write_cerr (console_line (method, text)) w)) as (Ho1 & He1 & Hd1);
      destruct (IH (write_cout (console_line (method, text)) w)) as (Ho2 & He2 & Hd2);
      simpl in *.
    + rewrite Ho1, He1, Hd1. by rewrite string_app_assoc.
    + rewrite Ho2, He2, Hd2. by rewrite string_app_assoc.
Qed.

Lemma accepted_nothing (limit : option nat) (old : string) :
  accepted limit old EmptyString = EmptyString.
Proof. destruct limit as [n|]; simpl; [by destruct (n - _)|done]. Qed.

Lemma OutputHandlerFile_invoke_all (f : FILE) (cs : list (Sink * string))
    (w : World) (old : string) :
  disk w !! f = Some old →
  disk (invoke_all (OutputHandlerFile (Some f)) cs w)
  = <[f := old +:+ accepted (size_limit w !! f) old
                     (concat_lines (file_line <$> cs))]> (disk w)
  ∧ cout (invoke_all (OutputHandlerFile (Some f)) cs w) = cout w
  ∧ cerr (invoke_all (OutputHandlerFile (Some f)) cs w) = cerr w.
Proof.
  revert w old. induction cs as [|c cs IH]; intros w old Hold.
  - simpl. rewrite accepted_nothing, string_app_nil_r. by rewrite insert_id.
  - destruct c as [method text].
    rewrite !invoke_all_cons, invoke_OutputHandlerFile.
    set (line := file_line (method, text)).
    destruct (IH (fprintf_flush f line w)
                (old +:+ accepted (size_limit w !! f) old line)) as (Hd & Ho & He).
    { simpl. rewrite Hold. simpl. apply lookup_insert_eq. }
    rewrite Hd, Ho, He. simpl. rewrite Hold. simpl.
    fold line. rewrite insert_insert_eq.
    by rewrite (accepted_app _ old line), string_app_assoc.
Qed.

(** X11: when the file can be opened, the constructor reports nothing and
    holds a stream on the file that the path names; after any sequence of
    calls that file holds what it held before followed by the part that it
    could store of the tagged lines of the calls, taken in order: all of them
    when the file has no size limit, their first characters up to the limit
    otherwise, nothing when the file had reached its limit. What is lost is
    reported nowhere: the standard streams are as before, and so are the
    other files. *)
Theorem OutputHandlerFile_appends (filename : string) (cs : list (Sink * string))
    (w : World) :
  filename ∉ unopenable w →
  ∃ f w1 old stored,
    OutputHandlerFile_new filename w = (Some f, w1)
    ∧ f = canonical w filename
    ∧ cerr w1 = cerr w
    ∧ old = default EmptyString (disk w !! f)
    ∧ disk (invoke_all (OutputHandlerFile (Some f)) cs w1) !! f
      = Some (old +:+ stored)
    ∧ (size_limit w !! f = None → stored = concat_lines (file_line <$> cs))
    ∧ (∀ n, size_limit w !! f = Some n →
         stored = string_take (n - String.length old)
                    (concat_lines (file_line <$> cs)))
    ∧ (∀ n, size_limit w !! f = Some n → n ≤ String.length old →
         stored = EmptyString)
    ∧ (∀ g, g ≠ f →
         disk (invoke_all (OutputHandlerFile (Some f)) cs w1) !! g = disk w !! g)
    ∧ cout (invoke_all (OutputHandlerFile (Some f)) cs w1) = cout w
    ∧ cerr (invoke_all (OutputHandlerFile (Some f)) cs w1) = cerr w.
Proof.
  intros Hopen. unfold OutputHandlerFile_new, fopen_a.
  rewrite decide_False by done.
  set (f := canonical w filename).
  set (old := default EmptyString (disk w !! f)).
  set (w1 := {| cout := cout w; cerr := cerr w;
                disk := <[f := old]> (disk w);
                alias := alias w; size_limit := size_limit w;
                unopenable := unopenable w; unclosable := unclosable w |}).
  exists f, w1, old,
    (accepted (size_limit w !! f) old (concat_lines (file_line <$> cs))).
  do 4 (split; [done|]).
  destruct (OutputHandlerFile_invoke_all f cs w1 old) as (Hd & Ho & He).
  { apply lookup_insert_eq. }
  rewrite Hd, Ho, He. split; [apply lookup_insert_eq|].
  split; [by intros ->|]. split; [by intros n ->|].
  split.
  - intros n -> Hn. simpl.
    replace (n - String.length old) with 0 by lia. apply string_take_0.
  - split; [|done]. intros g Hg. subst w1. simpl. by rewrite !lookup_insert_ne.
Qed.

(** X12: the file handler prints the text up to its first NUL: what follows
    an embedded NUL is dropped, and the line written is the one the console
    handler writes for the text before the NUL. *)
Theorem OutputHandlerFile_drops_after_NUL (f : FILE) (method : Sink)
    (a b : list ascii) (w : World) :
  NUL ∉ a →
  invoke (OutputHandlerFile (Some f)) method
    (String.string_of_list_ascii (a ++ NUL :: b)) w
  = fprintf_flush f (console_line (method, String.string_of_list_ascii a)) w.
Proof.
  intros Ha. rewrite invoke_OutputHandlerFile. unfold file_line, console_line, c_str.
  simpl. by rewrite String.list_ascii_of_string_of_list_ascii, until_nul_stops.
Qed.

Section DispatchProperties.

Context {va_list : Type}.
Variable expand : string -> va_list -> list ascii.
Variable libc : Libc.
Variable garbage : nat -> ascii.

Lemma configure_live (objs : gmap positive OutputHandler) (c : ConfigCall)
    (doh : DefaultOutputHandler) :
  (∀ p, c = CallUseOutputHandler (Some p) → is_Some (deref objs p)) →
  live objs (output_handler_ doh) ∧ live objs (previous_output_handler_ doh) →
  live objs (output_handler_ (configure doh c))
  ∧ live objs (previous_output_handler_ (configure doh c)).
Proof.
  intros Hc [Hcur Hprev]. destruct c as [| |oh| |]; simpl; try done.
  split; [|done]. intros p ->. by apply Hc.
Qed.

Lemma configure_all_live (objs : gmap positive OutputHandler)
    (cs : list ConfigCall) (doh : DefaultOutputHandler) :
  (∀ p, CallUseOutputHandler (Some p) ∈ cs → is_Some (deref objs p)) →
  live objs (output_handler_ doh) ∧ live objs (previous_output_handler_ doh) →
  live objs (output_handler_ (configure_all cs doh))
  ∧ live objs (previous_output_handler_ (configure_all cs doh)).
Proof.
  revert doh. induction cs as [|c cs IH]; intros doh Hcs Hlive; [done|].
  unfold configure_all. simpl. apply IH.
  - intros p Hin. apply Hcs. by right.
  - apply configure_live; [|done]. intros p ->. apply Hcs. left.
Qed.

(** X13: from the initial state, whatever sequence of configuration calls
    the host application makes, if every handler it installs is an object
    that exists then [log] never calls through a dangling pointer: the call
    it makes, if any, is performed. *)
Theorem configured_router_dispatch_is_safe (objs : gmap positive OutputHandler)
    (cs : list ConfigCall) (file : string) (line : Z) (level : LogLevel)
    (m : string) (ap : va_list) (w : World) :
  (∀ p, CallUseOutputHandler (Some p) ∈ cs → is_Some (deref objs p)) →
  ∃ tr w',
    log expand libc garbage (configure_all cs DOH_init) file line level m ap
      = Some tr
    ∧ perform_all objs tr w = Some w'.
Proof.
  intros Hcs.
  destruct (configure_all_live objs cs DOH_init Hcs) as [Hcur _].
  { split; intros p Hp; simpl in Hp; simplify_eq; by eexists. }
  rewrite log_unfold.
  destruct (output_handler_ (configure_all cs DOH_init)) as [oh|] eqn:Hoh.
  - case_bool_decide; [|by eexists _, _].
    destruct (Hcur oh eq_refl) as [obj Hobj].
    eexists _, _. split; [done|]. simpl. rewrite Hobj. done.
  - by eexists _, _.
Qed.

(** X14: with a file handler that holds an open file installed, a message
    that passes the level check is performed as one write at the end of that
    file, of the tag of the level's method, the annotated text and a
    newline: the whole line is added when the file has no size limit,
    nothing when the file had reached its limit, and in every case the
    standard streams are untouched. Without line numbers the text is the
    message as read from the buffer. *)
Theorem log_to_file_handler (objs : gmap positive OutputHandler) (a : positive)
    (f : FILE) (old : string) (doh : DefaultOutputHandler) (file : string)
    (line : Z) (level : LogLevel) (m : string) (ap : va_list) (w : World) :
  output_handler_ doh = Some (host_addr a) →
  objs !! a = Some (OutputHandlerFile (Some f)) →
  (logLevel_ doh ≤ level)%Z →
  disk w !! f = Some old →
  ∃ tr w' text stored,
    log expand libc garbage doh file line level m ap = Some tr
    ∧ perform_all objs tr w = Some w'
    ∧ text = annotate (showLineNumbers_ doh) file line
               (truncated_message (expand m ap))
    ∧ disk w' = <[f := old +:+ stored]> (disk w)
    ∧ (size_limit w !! f = None →
         stored = tag (level_switch level) +:+ (c_str text +:+ endl))
    ∧ (∀ n, size_limit w !! f = Some n →
         stored = string_take (n - String.length old)
                    (tag (level_switch level) +:+ (c_str text +:+ endl)))
    ∧ (∀ n, size_limit w !! f = Some n → n ≤ String.length old →
         stored = EmptyString)
    ∧ cout w' = cout w
    ∧ cerr w' = cerr w
    ∧ (showLineNumbers_ doh = false → c_str text = truncated_message (expand m ap)).
Proof.
  intros Hoh Hobj Hge Hold. eexists _, _, _, _.
  split; [by apply log_dispatched|]. simpl. rewrite Hobj. simpl.
  split; [done|]. split; [done|].
  rewrite invoke_OutputHandlerFile. simpl. rewrite Hold. simpl.
  split; [done|]. split; [by intros ->|]. split; [by intros n ->|].
  split.
  - intros n -> Hn. simpl.
    replace (n - String.length old) with 0 by lia. apply string_take_0.
  - split; [done|]. split; [done|]. intros ->. apply c_str_until_nul.
Qed.

End DispatchProperties.

(** * Worked examples of the further properties *)

Example log_to_file_example :
  (tr ← log expand_s C99 stack_x (configure_all host_calls DOH_init)
          "/src/geometric/RRT.cpp" 117 ERROR "no %s" ["goal"];
   w ← perform_all objs_file tr world_log;
   Some (cerr w, disk w !! "/tmp/ompl.log"))
  = Some (EmptyString,
          Some ("Info:    started" +:+ (endl +:+ ("Error:   no goal" +:+ endl)))).
Proof. vm_compute. reflexivity. Qed.

(** The text of the INFO message of the first example. *)
Lemma log_total_and_bounded_witness :
  ∃ body,
    "Created 42 states" = annotate false "RRT.cpp" 117 body
    ∧ String.length body ≤ MAX_BUFFER_SIZE - 1
    ∧ (NUL ∉ String.list_ascii_of_string body)
    ∧ (String.list_ascii_of_string body
         `prefix_of` expand_s "Created %s states" ["42"]).
Proof.
  destruct (log_total_and_bounded expand_s C99 stack_x DOH_init "RRT.cpp" 117
              INFO "Created %s states" ["42"]) as (_ & tr & Hlog & Hcalls).
  apply (Hcalls std_output_handler_addr SinkInform).
  assert (tr = [EvFormat;
                EvCall std_output_handler_addr SinkInform "Created 42 states"])
    as -> by (vm_compute in Hlog; congruence).
  left.
Defined.

(** A message of 17 characters. *)
Lemma log_short_message_intact_witness :
  log expand_s PreC99 stack_x DOH_init "RRT.cpp" 117 INFO "Created %s states" ["42"]
  = Some [EvFormat;
          EvCall std_output_handler_addr (level_switch INFO)
            (annotate (showLineNumbers_ DOH_init) "RRT.cpp" 117
               (String.string_of_list_ascii (expand_s "Created %s states" ["42"])))].
Proof.
  apply (log_short_message_intact expand_s PreC99 stack_x DOH_init
           std_output_handler_addr "RRT.cpp" 117 INFO "Created %s states" ["42"]).
  - reflexivity.
  - by vm_compute.
  - vm_compute. lia.
  - apply (bool_decide_unpack _). by vm_compute.
Defined.

(** A message dispatched at WARN under the minimum WARN is dispatched at
    ERROR under the minimum INFO. *)
Lemma log_level_monotone_witness :
  log expand_s C99 stack_x (setLogLevel INFO (setLogLevel WARN DOH_init))
    "RRT.cpp" 117 ERROR "no %s" ["goal"]
  = Some [EvFormat; EvCall std_output_handler_addr (level_switch ERROR) "no goal"].
Proof.
  apply (log_level_monotone expand_s C99 stack_x (setLogLevel WARN DOH_init)
           std_output_handler_addr SinkWarn "no goal" "RRT.cpp" 117
           WARN ERROR INFO "no %s" ["goal"]).
  - vm_compute. reflexivity.
  - by vm_compute.
  - by vm_compute.
Defined.

(** The call of warn of a WARN message. *)
Lemma log_method_determines_level_witness : WARN = WARN.
Proof.
  apply (log_method_determines_level expand_s C99 stack_x DOH_init "RRT.cpp" 117
           WARN "no %s" ["goal"]
           [EvFormat; EvCall std_output_handler_addr SinkWarn "no goal"]
           std_output_handler_addr SinkWarn "no goal").
  - vm_compute. reflexivity.
  - left.
Defined.

(** The level set by the host application survives the two handler calls
    that follow. *)
Lemma configure_keeps_last_level_witness :
  getLogLevel (configure_all host_calls DOH_init) = WARN.
Proof.
  apply (configure_keeps_last_level [CallUseOutputHandler (Some (host_addr 1))]
           [CallNoOutputHandler; CallRestorePreviousOutputHandler] WARN DOH_init).
  intros level' Hin.
  repeat (apply elem_of_cons in Hin as [Heq|Hin]; [discriminate Heq|]).
  by apply elem_of_nil in Hin.
Defined.

(** Two calls on a file that holds one line already, opened through
    another spelling of its path. *)
Lemma OutputHandlerFile_appends_witness :
  ∃ w1,
    OutputHandlerFile_new "/tmp/./ompl.log" world_log = (Some "/tmp/ompl.log", w1)
    ∧ disk (invoke_all (OutputHandlerFile (Some "/tmp/ompl.log"))
              [(SinkWarn, "slow"); (SinkDebug, "done")] w1) !! "/tmp/ompl.log"
      = Some ("Info:    started" +:+ (endl +:+ ("Warning: slow" +:+ (endl +:+
              ("Debug:   done" +:+ endl))))).
Proof.
  destruct (OutputHandlerFile_appends "/tmp/./ompl.log"
              [(SinkWarn, "slow"); (SinkDebug, "done")] world_log)
    as (f & w1 & old & stored & Hnew & -> & _ & -> & Hdisk & Hall & _).
  - apply (bool_decide_unpack _). by vm_compute.
  - exists w1. split; [exact Hnew|].
    rewrite (Hall eq_refl) in Hdisk. exact Hdisk.
Defined.

(** The same two calls when the file has room for 7 characters: the first
    7 characters of the first line are stored, and nothing is reported. *)
Example OutputHandlerFile_full_example :
  (let '(file_, w) := OutputHandlerFile_new "/tmp/ompl.log" world_full in
   let w := invoke_all (OutputHandlerFile file_)
              [(SinkWarn, "slow"); (SinkDebug, "done")] w in
   (cout w, cerr w, disk w !! "/tmp/ompl.log"))
  = (EmptyString, EmptyString, Some ("Info:    started" +:+ (endl +:+ "Warning"))).
Proof. vm_compute. reflexivity. Qed.

(** The text "ab", a NUL and "cd". *)
Lemma OutputHandlerFile_drops_after_NUL_witness :
  invoke (OutputHandlerFile (Some "/tmp/ompl.log")) SinkError
    (String.string_of_list_ascii
       (["a"; "b"]%char ++ NUL :: ["c"; "d"]%char)) world_log
  = fprintf_flush "/tmp/ompl.log"
      (console_line (SinkError, String.string_of_list_ascii ["a"; "b"]%char))
      world_log.
Proof.
  apply (OutputHandlerFile_drops_after_NUL "/tmp/ompl.log" SinkError
           ["a"; "b"]%char ["c"; "d"]%char world_log).
  apply (bool_decide_unpack _). by vm_compute.
Defined.

(** The host application of [host_calls], whose one handler exists. *)
Lemma configured_router_dispatch_is_safe_witness :
  ∃ tr w',
    log expand_s C99 stack_x (configure_all host_calls DOH_init)
      "RRT.cpp" 117 ERROR "no %s" ["goal"] = Some tr
    ∧ perform_all objs_file tr world_log = Some w'.
Proof.
  apply (configured_router_dispatch_is_safe expand_s C99 stack_x objs_file
           host_calls "RRT.cpp" 117 ERROR "no %s" ["goal"] world_log).
  intros p Hin.
  apply elem_of_cons in Hin as [Heq|Hin].
  - injection Heq as ->. eexists. reflexivity.
  - repeat (apply elem_of_cons in Hin as [Heq|Hin]; [discriminate Heq|]).
    by apply elem_of_nil in Hin.
Defined.

(** An ERROR message sent to the file handler of [objs_file]. *)
Lemma log_to_file_handler_witness :
  ∃ tr w',
    log expand_s C99 stack_x (configure_all host_calls DOH_init)
      "RRT.cpp" 117 ERROR "no %s" ["goal"] = Some tr
    ∧ perform_all objs_file tr world_log = Some w'
    ∧ disk w'
      = <["/tmp/ompl.log" :=
            ("Info:    started" +:+ endl) +:+ ("Error:   no goal" +:+ endl)]>
          (disk world_log)
    ∧ cout w' = cout world_log
    ∧ cerr w' = cerr world_log.
Proof.
  destruct (log_to_file_handler expand_s C99 stack_x objs_file 1%positive
              "/tmp/ompl.log" ("Info:    started" +:+ endl)
              (configure_all host_calls DOH_init) "RRT.cpp" 117 ERROR
              "no %s" ["goal"] world_log)
    as (tr & w' & text & stored & Hlog & Hrun & -> & Hdisk & Hall & _ & _
        & Hcout & Hcerr & _).
  - reflexivity.
  - reflexivity.
  - by vm_compute.
  - reflexivity.
  - exists tr, w'. rewrite (Hall eq_refl) in Hdisk.
    split; [exact Hlog|]. split; [exact Hrun|].
    split; [exact Hdisk|]. split; [exact Hcout|exact Hcerr].
Defined.
